(** * The confound loader of the feature-extraction notebook

    A shallow embedding of [prepare_confounds], the one helper the notebook
    defines itself:

<<
    def prepare_confounds(conf, key = 'R', transpose=True):
        arrays = {}
        f = h5py.File(conf)
        for k, v in f.items():
            arrays[k] = np.array(v)

        if transpose:
            output = arrays[key].T
        else:
            output = arrays[key]

        return output
>>

    The function is modelled in a small state-and-exception monad over a
    [world] made of the stored files, the table of open file handles and the
    memory in which numpy allocates array buffers. The function closes
    nothing itself; what happens to the file object held by its local [f]
    when the call ends is part of the model. *)

From Stdlib Require Import Ascii.
From stdpp Require Import gmap strings list pretty.

Set Default Proof Using "Type".

(** ** Data model *)

Section Loader.
Context {elt : Type}.

(** A dataset as the file stores it: its extents and its elements in
    row-major order. [elt] is the element type of the file; the loader never
    computes with elements. *)
Record dataset := Dataset {
  ds_shape : list nat;
  ds_data : list elt
}.

(** An in-memory array as numpy has it: the buffer it reads from (an address
    in the [heap] of the world), its extents and its strides. Strides are
    counted in elements, not bytes. Two arrays with the same [data] share
    their elements: one is a view of the other. *)
Record ndarray := NDArray {
  data : nat;
  shape : list nat;
  strides : list nat
}.

(** A node of the file system: a container of named datasets, in the order
    in which [items()] enumerates them, and whether it can be opened for
    reading. Only datasets are modelled as members, as in the confound files
    the notebook reads. *)
Record h5file := H5File {
  readable : bool;
  items : list (string * dataset)
}.

(** The world a call runs in. [handles] lists the paths of the files
    that are open, most recent first. [heap] lists the buffers allocated so
    far, by address; a buffer is written once, when it is allocated, and
    addresses are not reused. *)
Record world := World {
  files : gmap string h5file;
  handles : list string;
  heap : list (list elt)
}.

(** The exceptions of the error taxonomy. [OSError] is what opening a file
    raises (the FileAccessError kind), [KeyError] what subscripting a dict
    with an absent key raises (the KeyNotFoundError kind). [ShapeError] is
    the third kind of the taxonomy; no statement of the function raises it. *)
Inductive exception :=
  | OSError (path : string)
  | KeyError (key : string)
  | ShapeError.

Inductive result (A : Type) :=
  | Ok (a : A)
  | Raise (e : exception).
Global Arguments Ok {A} a.
Global Arguments Raise {A} e.

(** ** The monad: state passing with exceptions *)

Definition M (A : Type) : Type := world → world * result A.

Definition ret {A} (a : A) : M A := λ w, (w, Ok a).

Definition bind {A B} (c : M A) (k : A → M B) : M B := λ w,
  match c w with
  | (w', Ok a) => k a w'
  | (w', Raise e) => (w', Raise e)
  end.

Definition raise {A} (e : exception) : M A := λ w, (w, Raise e).

Notation "x <~ c ;; k" := (bind c (λ x, k))
  (at level 100, c at next level, right associativity).

(** ** The library calls the function makes *)

(** [h5py.File(conf)]: the function passes the path alone, so the file is
    opened in the library's default mode, taken here to be read-only as in
    current releases of the library. The call registers the handle and
    raises when the path names no file or the file cannot be read. The value
    is what [f.items()] will enumerate. *)
Definition h5py_File (conf : string) : M (list (string * dataset)) := λ w,
  match files w !! conf with
  | Some f =>
      if readable f
      then (World (files w) (conf :: handles w) (heap w), Ok (items f))
      else (w, Raise (OSError conf))
  | None => (w, Raise (OSError conf))
  end.

(** Number of elements of an array of the given extents ([a.size]). *)
Definition size (shp : list nat) : nat := foldr Nat.mul 1 shp.

(** Row-major strides: the last axis has stride 1 and each axis before it
    the product of the extents after it. *)
Fixpoint row_major (shp : list nat) : list nat :=
  match shp with
  | [] => []
  | _ :: rest => size rest :: row_major rest
  end.

(** Strides of freshly allocated arrays, as numpy fills them: row-major,
    except that an array with no elements gets stride 0 on every axis. *)
Definition c_strides (shp : list nat) : list nat :=
  if decide (size shp = 0) then replicate (length shp) 0 else row_major shp.

(** [np.array(v)]: reads the dataset into a fresh buffer and returns a
    contiguous array over it. *)
Definition np_array (v : dataset) : M ndarray := λ w,
  (World (files w) (handles w) (heap w ++ [ds_data v]),
   Ok (NDArray (length (heap w)) (ds_shape v) (c_strides (ds_shape v)))).

(** [a.T]: a view of the same buffer with the axes in reverse order. *)
Definition T (a : ndarray) : ndarray :=
  NDArray (data a) (reverse (shape a)) (reverse (strides a)).

(** [arrays[key]] on a dict. *)
Definition dict_getitem (arrays : gmap string ndarray) (key : string)
  : M ndarray :=
  match arrays !! key with
  | Some a => ret a
  | None => raise (KeyError key)
  end.

(** The handle table without the most recent handle on [conf]. *)
Fixpoint drop_handle (conf : string) (hs : list string) : list string :=
  match hs with
  | [] => []
  | h :: hs' => if decide (h = conf) then hs' else h :: drop_handle conf hs'
  end.

(** [return output]: the call ends normally and its frame is discarded.
    The local [f] held the only reference to the file object opened on
    [conf] (every member was copied out of it by [np.array]), so the object
    is reclaimed and its file closed: the handle leaves the table. An
    exception leaves the function without reaching this point; its
    traceback keeps the frame, and with it [f] and the open file, alive. *)
Definition leave_frame {A : Type} (conf : string) (output : A) : M A := λ w,
  (World (files w) (drop_handle conf (handles w)) (heap w), Ok output).

(** ** The function *)

(** The loop [for k, v in f.items(): arrays[k] = np.array(v)]. *)
Fixpoint for_items (its : list (string * dataset))
    (arrays : gmap string ndarray) : M (gmap string ndarray) :=
  match its with
  | [] => ret arrays
  | (k, v) :: rest =>
      a <~ np_array v ;;
      for_items rest (<[k := a]> arrays)
  end.

Definition prepare_confounds (conf key : string) (transpose : bool)
  : M ndarray :=
  f <~ h5py_File conf ;;
  arrays <~ for_items f ∅ ;;
  output <~ (if transpose
             then a <~ dict_getitem arrays key ;; ret (T a)
             else dict_getitem arrays key) ;;
  leave_frame conf output.

(** ** Reading arrays *)

(** Position in the buffer of the element at a multi-index. *)
Fixpoint offset (idx strd : list nat) : nat :=
  match idx, strd with
  | i :: idx', s :: strd' => i * s + offset idx' strd'
  | _, _ => 0
  end.

(** A multi-index is valid when it has one entry per axis, each below the
    extent of its axis. *)
Fixpoint in_bounds (idx shp : list nat) : bool :=
  match idx, shp with
  | [], [] => true
  | i :: idx', n :: shp' => (i <? n) && in_bounds idx' shp'
  | _, _ => false
  end.

(** [a[idx]] for a full multi-index of non-negative entries; [None] stands
    for the IndexError of an invalid index. *)
Definition getitem (h : list (list elt)) (a : ndarray) (idx : list nat)
  : option elt :=
  if in_bounds idx (shape a)
  then buf ← h !! data a; buf !! offset idx (strides a)
  else None.

(** All valid multi-indices of a shape, last axis varying fastest. *)
Fixpoint indices (shp : list nat) : list (list nat) :=
  match shp with
  | [] => [[]]
  | n :: rest => i ← seq 0 n; (λ idx, i :: idx) <$> indices rest
  end.

(** The elements of an array in logical order ([a.ravel()]). *)
Definition ravel (h : list (list elt)) (a : ndarray) : list (option elt) :=
  getitem h a <$> indices (shape a).

(** Row [i] and column [j] of a 2-dimensional array. *)
Definition row (h : list (list elt)) (a : ndarray) (i : nat)
  : list (option elt) :=
  (λ j, getitem h a [i; j]) <$> seq 0 (default 0 (shape a !! 1)).

Definition col (h : list (list elt)) (a : ndarray) (j : nat)
  : list (option elt) :=
  (λ i, getitem h a [i; j]) <$> seq 0 (default 0 (shape a !! 0)).

(** The key-value pair the dict ends up holding for [k] after the loop ran
    over [its]: the last pair enumerated under that key, with its position
    in the enumeration. *)
Fixpoint find_last (k : string) (its : list (string * dataset))
  : option (nat * dataset) :=
  match its with
  | [] => None
  | (k', v) :: rest =>
      match find_last k rest with
      | Some (i, d) => Some (S i, d)
      | None => if decide (k = k') then Some (0, v) else None
      end
  end.

(** The array [np.array] builds for dataset [d] when the heap holds [n]
    buffers already. *)
Definition fresh_array (n : nat) (d : dataset) : ndarray :=
  NDArray n (ds_shape d) (c_strides (ds_shape d)).

(** The world after the file at [conf] was opened and all of [its] read. *)
Definition after_read (conf : string) (its : list (string * dataset))
    (w : world) : world :=
  World (files w) (conf :: handles w) (heap w ++ (ds_data ∘ snd <$> its)).

(** The world after a call on [conf] read all of [its] and returned. *)
Definition after_return (its : list (string * dataset)) (w : world)
  : world :=
  World (files w) (handles w) (heap w ++ (ds_data ∘ snd <$> its)).

(** Two arrays, each read in its own heap, hold the same bits: the same
    extents and the same elements in logical order. *)
Definition same_array (h1 : list (list elt)) (a1 : ndarray)
    (h2 : list (list elt)) (a2 : ndarray) : Prop :=
  shape a1 = shape a2 ∧ ravel h1 a1 = ravel h2 a2.

(** Two outcomes agree: the same exception, or arrays with the same bits. *)
Definition same_result (h1 : list (list elt)) (r1 : result ndarray)
    (h2 : list (list elt)) (r2 : result ndarray) : Prop :=
  match r1, r2 with
  | Ok a1, Ok a2 => same_array h1 a1 h2 a2
  | Raise e1, Raise e2 => e1 = e2
  | _, _ => False
  end.

(** A call releases what it acquired when the handle table after it is the
    handle table before it. *)
Definition releases_handle (conf key : string) (transpose : bool)
    (w : world) : Prop :=
  handles (prepare_confounds conf key transpose w).1 = handles w.

End Loader.

Global Arguments dataset : clear implicits.
Global Arguments ndarray : clear implicits.
Global Arguments h5file : clear implicits.
Global Arguments world : clear implicits.
Global Arguments M : clear implicits.

(** ** A sample file system

    A confound file with a 2 x 3 matrix under ["R"], a vector under ["fd"]
    and a scalar under ["tr"]; a second file binding ["R"] to the same
    matrix among other members; and a file that cannot be read. *)

Definition motion : dataset Z :=
  Dataset [2; 3] [11; 12; 13; 21; 22; 23]%Z.

Definition displacement : dataset Z := Dataset [3] [7; 8; 9]%Z.

Definition repetition_time : dataset Z := Dataset [] [2]%Z.

Definition sub01 : h5file Z :=
  H5File true [("R", motion); ("fd", displacement); ("tr", repetition_time)].

Definition sub02 : h5file Z :=
  H5File true [("fd", displacement); ("aux", displacement); ("R", motion)].

Definition locked : h5file Z := H5File false [("R", motion)].

Definition disk : world Z :=
  World {[ "sub01.mat" := sub01; "sub02.mat" := sub02;
           "locked.mat" := locked ]} [] [].

(** ** What [fetch_data] asks for

    The notebook's other function, [fetch_data], resolves a directory,
    downloads through the library call [_fetch_files] and returns the local
    paths. What is its own is the computation of what to download:

<<
    if url is None:
        url = 'https://openneuro.org/crn/datasets/ds000228/snapshots/00001/files/'
    ...
    max_subjects = 155
    if n_subjects is None:
        n_subjects = max_subjects
    if n_subjects > max_subjects:
        warnings.warn('Warning: there are only %d subjects' % max_subjects)
        n_subjects = max_subjects
    ids = range(1, n_subjects + 1)

    phenotypic = ('participants.tsv', url + 'participants.tsv', dict())
    ...
    int_ids = np.asarray(ids, dtype=int)
    phenotypic = phenotypic[[i - 1 for i in int_ids]]

    functionals = [
        'derivatives:fmriprep:sub-pixar%03i:sub-pixar%03i_task-pixar_run-001_swrf_bold.nii.gz' % (i, i)
        for i in ids]
    urls = [url + name for name in functionals]
    functionals = _fetch_files(
        data_dir, zip(functionals, urls, (dict(),) * n_subjects), ...)

    confounds = [
        'derivatives:fmriprep:sub-pixar%03i:sub-pixar%03i_task-pixar_run-001_ART_and_CompCor_nuisance_regressors.mat'
        % (i, i)
        for i in ids]
    confound_urls = [url + name for name in confounds]
    confounds = _fetch_files(
        data_dir, zip(confounds, confound_urls, (dict(),) * n_subjects), ...)
>>

    The definitions below are these expressions; the library calls
    themselves ([_get_dataset_dir], [_fetch_files], [np.genfromtxt]) are
    not modelled. *)

Definition default_url : string :=
  "https://openneuro.org/crn/datasets/ds000228/snapshots/00001/files/".

Definition max_subjects : Z := 155.

(** The two [if]s on [n_subjects]: its value afterwards, and the messages
    passed to [warnings.warn]. [None] is the Python [None]. *)
Definition limit_subjects (n_subjects : option Z) : Z * list string :=
  let n := match n_subjects with None => max_subjects | Some n => n end in
  if (max_subjects <? n)%Z
  then (max_subjects,
        ["Warning: there are only " +:+ pretty max_subjects +:+ " subjects"])
  else (n, []).

(** [range(1, n_subjects + 1)]: the integers from 1 to [n_subjects], none
    when [n_subjects] is below 1. They are positive, hence naturals. *)
Definition subject_ids (n_subjects : Z) : list nat :=
  seq 1 (Z.to_nat n_subjects).

Fixpoint zeros (n : nat) : string :=
  match n with
  | 0 => ""
  | S n' => String "0"%char (zeros n')
  end.

(** ['%03i' % i] for a natural [i]: its decimal digits, padded with zeros on
    the left up to 3 characters and never cut. *)
Definition fmt_03i (i : nat) : string :=
  zeros (3 - String.length (pretty i)) +:+ pretty i.

Definition functional_name (i : nat) : string :=
  "derivatives:fmriprep:sub-pixar" +:+ fmt_03i i +:+ ":sub-pixar"
  +:+ fmt_03i i +:+ "_task-pixar_run-001_swrf_bold.nii.gz".

Definition confound_name (i : nat) : string :=
  "derivatives:fmriprep:sub-pixar" +:+ fmt_03i i +:+ ":sub-pixar"
  +:+ fmt_03i i
  +:+ "_task-pixar_run-001_ART_and_CompCor_nuisance_regressors.mat".

(** One entry of the list handed to [_fetch_files]: file name, address and
    options; the options are always [dict()]. *)
Definition request : Type := string * string * gmap string string.

(** Python's [zip] of three sequences: as long as the shortest. *)
Fixpoint zip3 {A B C : Type} (l1 : list A) (l2 : list B) (l3 : list C)
  : list (A * B * C) :=
  match l1, l2, l3 with
  | x :: l1', y :: l2', z :: l3' => (x, y, z) :: zip3 l1' l2' l3'
  | _, _, _ => []
  end.

(** [zip(names, [url + name for name in names], (dict(),) * n_subjects)];
    a tuple repeated a negative number of times is empty. *)
Definition file_requests (url : string) (names : list string)
    (n_subjects : Z) : list request :=
  zip3 names ((λ name, url +:+ name) <$> names)
       (replicate (Z.to_nat n_subjects) ∅).

(** Everything [fetch_data] computes before and between its library
    calls: the warnings, the request for the participants table, the rows
    it selects from it, and the requests for images and confound files. *)
Record requests := Requests {
  warned : list string;
  phenotypic : request;
  phenotypic_rows : list nat;
  functionals : list request;
  confounds : list request
}.

Definition fetch_data_requests (n_subjects : option Z) (url : option string)
  : requests :=
  let url := match url with None => default_url | Some u => u end in
  let '(n_subjects, warned) := limit_subjects n_subjects in
  let ids := subject_ids n_subjects in
  Requests warned
    ("participants.tsv", url +:+ "participants.tsv", ∅)
    ((λ i, i - 1) <$> ids)
    (file_requests url (functional_name <$> ids) n_subjects)
    (file_requests url (confound_name <$> ids) n_subjects).

(** Reads back the number a string starts with: its leading decimal
    digits, after [acc]. *)
Fixpoint read_digits (acc : nat) (s : string) : nat :=
  match s with
  | String c s' =>
      match Ascii.is_nat c with
      | Some d => read_digits (acc * 10 + d) s'
      | None => acc
      end
  | EmptyString => acc
  end.

(** ** How a call runs *)

Section Runs.
Context {elt : Type}.
Implicit Types (w : world elt) (its : list (string * dataset elt)).
Implicit Types (d v : dataset elt) (a b : ndarray) (k key conf : string).

Lemma find_last_lookup k its i d :
  find_last k its = Some (i, d) → its !! i = Some (k, d).
Proof.
  revert i d. induction its as [|[k' v] rest IH]; intros i d; simpl; [done|].
  destruct (find_last k rest) as [[i' d']|] eqn:E.
  - intros [= <- <-]. simpl. by apply IH.
  - case_decide; [|done]. by intros [= <- <-]; subst.
Qed.

Lemma find_last_None k its :
  find_last k its = None ↔ k ∉ its.*1.
Proof.
  induction its as [|[k' v] rest IH]; simpl.
  - split; [|done]. intros _. apply not_elem_of_nil.
  - rewrite not_elem_of_cons, <- IH.
    destruct (find_last k rest) as [[i' d']|].
    + split; [done|]. by intros [_ ?].
    + case_decide; [|tauto]. split; [done|]. by intros [? _].
Qed.

Lemma find_last_NoDup k d its :
  NoDup its.*1 → (k, d) ∈ its → ∃ i, find_last k its = Some (i, d).
Proof.
  induction its as [|[k' v] rest IH]; simpl.
  - intros _ Hin. by apply elem_of_nil in Hin.
  - intros [Hnotin Hnd]%NoDup_cons [Heq|Hin]%elem_of_cons.
    + injection Heq as <- <-.
      apply find_last_None in Hnotin. rewrite Hnotin.
      rewrite decide_True by done. by exists 0.
    + destruct (IH Hnd Hin) as [i ->]. by exists (S i).
Qed.

(** The loop never raises; it appends one buffer per pair enumerated and
    leaves in the dict, under each key, the array of the last pair with
    that key. *)
Lemma for_items_run its : ∀ (arrays : gmap string ndarray) w,
  ∃ final,
    for_items its arrays w
    = (World (files w) (handles w) (heap w ++ (ds_data ∘ snd <$> its)),
       Ok final)
    ∧ ∀ k, final !! k =
        match find_last k its with
        | Some (i, d) => Some (fresh_array (length (heap w) + i) d)
        | None => arrays !! k
        end.
Proof.
  induction its as [|[k' v] rest IH]; intros arrays w; simpl.
  - exists arrays. split.
    + unfold ret. rewrite app_nil_r. by destruct w.
    + done.
  - unfold bind, np_array.
    destruct (IH (<[k' := fresh_array (length (heap w)) v]> arrays)
                (World (files w) (handles w) (heap w ++ [ds_data v])))
      as (final & Hrun & Hfinal).
    exists final. split.
    + unfold fresh_array in Hrun. rewrite Hrun. simpl.
      by rewrite <- app_assoc.
    + intros k. rewrite Hfinal. simpl.
      destruct (find_last k rest) as [[i d]|].
      * rewrite length_app. simpl. do 2 f_equal. lia.
      * rewrite lookup_insert. case_decide; subst.
        -- rewrite decide_True by done. by rewrite Nat.add_0_r.
        -- by rewrite decide_False by done.
Qed.

(** The buffer of the array the dict holds for a key is the data of the
    dataset it was read from. *)
Lemma after_read_buffer conf its w k i d :
  find_last k its = Some (i, d) →
  heap (after_read conf its w) !! (length (heap w) + i) = Some (ds_data d).
Proof.
  intros Hlast%find_last_lookup. simpl.
  rewrite lookup_app_r by lia.
  replace (length (heap w) + i - length (heap w)) with i by lia.
  rewrite list_lookup_fmap, Hlast. done.
Qed.

(** A call on a file that opens: the complete outcome. When the key is
    found the call returns and the handle is gone; when it is not, the
    KeyError leaves with the handle still in the table. *)
Lemma prepare_confounds_run conf key (transpose : bool) w f :
  files w !! conf = Some f → readable f = true →
  prepare_confounds conf key transpose w
  = match find_last key (items f) with
    | Some (i, d) =>
        let a := fresh_array (length (heap w) + i) d in
        (after_return (items f) w, Ok (if transpose then T a else a))
    | None => (after_read conf (items f) w, Raise (KeyError key))
    end.
Proof.
  intros Hf Hr. unfold prepare_confounds, bind at 1, h5py_File.
  rewrite Hf, Hr. unfold bind at 1.
  destruct (for_items_run (items f) ∅
              (World (files w) (conf :: handles w) (heap w)))
    as (final & -> & Hfinal).
  specialize (Hfinal key). simpl in Hfinal.
  unfold after_read, after_return, bind, dict_getitem, leave_frame.
  destruct (find_last key (items f)) as [[i d]|];
    rewrite Hfinal; [|rewrite lookup_empty; by destruct transpose].
  destruct transpose; simpl; by rewrite decide_True.
Qed.

(** The buffer of the array a call returns is the data of the dataset it
    was read from. *)
Lemma after_return_buffer its w k i d :
  find_last k its = Some (i, d) →
  heap (after_return its w) !! (length (heap w) + i) = Some (ds_data d).
Proof. apply (after_read_buffer ""). Qed.

(** A call on a path that does not open: the complete outcome. *)
Lemma prepare_confounds_no_file conf key (transpose : bool) w :
  (∀ f, files w !! conf = Some f → readable f = false) →
  prepare_confounds conf key transpose w = (w, Raise (OSError conf)).
Proof.
  intros Hno. unfold prepare_confounds, bind, h5py_File.
  destruct (files w !! conf) as [f|] eqn:Hf; [|done].
  by rewrite (Hno f).
Qed.

End Runs.

(** ** Reading through views *)

Section Views.
Context {elt : Type}.
Implicit Types (h : list (list elt)) (a b : ndarray).
Implicit Types (idx shp strd : list nat).

Lemma row_major_length shp : length (row_major shp) = length shp.
Proof. induction shp; simpl; congruence. Qed.

Lemma c_strides_length shp : length (c_strides shp) = length shp.
Proof.
  unfold c_strides. case_decide;
    [apply length_replicate | apply row_major_length].
Qed.

Lemma in_bounds_length idx shp :
  in_bounds idx shp = true → length idx = length shp.
Proof.
  revert shp. induction idx as [|i idx IH]; intros [|n shp]; simpl; try done.
  intros [_ H]%andb_prop. f_equal. by apply IH.
Qed.

Lemma in_bounds_app idx1 idx2 shp1 shp2 :
  length idx1 = length shp1 →
  in_bounds (idx1 ++ idx2) (shp1 ++ shp2)
  = in_bounds idx1 shp1 && in_bounds idx2 shp2.
Proof.
  revert shp1. induction idx1 as [|i idx1 IH]; intros [|n shp1]; simpl;
    try done.
  intros [= Hlen]. by rewrite (IH _ Hlen), andb_assoc.
Qed.

Lemma offset_app idx1 idx2 strd1 strd2 :
  length idx1 = length strd1 →
  offset (idx1 ++ idx2) (strd1 ++ strd2)
  = offset idx1 strd1 + offset idx2 strd2.
Proof.
  revert strd1. induction idx1 as [|i idx1 IH]; intros [|s strd1]; simpl;
    try done.
  intros [= Hlen]. rewrite (IH _ Hlen). lia.
Qed.

Lemma in_bounds_reverse idx shp :
  length idx = length shp →
  in_bounds (reverse idx) (reverse shp) = in_bounds idx shp.
Proof.
  revert shp. induction idx as [|i idx IH]; intros [|n shp]; simpl; try done.
  intros [= Hlen]. rewrite !reverse_cons.
  rewrite in_bounds_app by (by rewrite !length_reverse).
  rewrite (IH _ Hlen). simpl. rewrite andb_true_r. apply andb_comm.
Qed.

Lemma offset_reverse idx strd :
  length idx = length strd →
  offset (reverse idx) (reverse strd) = offset idx strd.
Proof.
  revert strd. induction idx as [|i idx IH]; intros [|s strd]; simpl; try done.
  intros [= Hlen]. rewrite !reverse_cons.
  rewrite offset_app by (by rewrite !length_reverse).
  rewrite (IH _ Hlen). simpl. lia.
Qed.

(** Reading a transposed view at an index is reading the array at the
    reversed index, whatever the rank. *)
Lemma getitem_T h a idx :
  length (strides a) = length (shape a) →
  getitem h (T a) (reverse idx) = getitem h a idx.
Proof.
  intros Hlen. unfold getitem, T. simpl.
  destruct (decide (length idx = length (shape a))) as [Hidx|Hidx].
  - rewrite in_bounds_reverse by done.
    rewrite offset_reverse by congruence. done.
  - destruct (in_bounds (reverse idx) (reverse (shape a))) eqn:E1.
    { apply in_bounds_length in E1. rewrite !length_reverse in E1. done. }
    destruct (in_bounds idx (shape a)) eqn:E2; [|done].
    by apply in_bounds_length in E2.
Qed.

Lemma T_involutive a : T (T a) = a.
Proof. destruct a. unfold T. simpl. by rewrite !reverse_involutive. Qed.

(** Row [i] of the transpose of a matrix is its column [i]. *)
Lemma row_T_col h a i p n :
  shape a = [p; n] → length (strides a) = 2 →
  row h (T a) i = col h a i.
Proof.
  intros Hshape Hstr. unfold row, col.
  replace (shape (T a)) with [n; p] by (unfold T; simpl; by rewrite Hshape).
  rewrite Hshape. simpl.
  apply list_fmap_ext. intros _ j _.
  change [i; j] with (reverse [j; i]). apply getitem_T.
  by rewrite Hshape.
Qed.

(** Two views with the same extents and strides over equal buffers read
    the same at every index. *)
Lemma getitem_same h1 h2 a1 a2 idx :
  shape a1 = shape a2 → strides a1 = strides a2 →
  h1 !! data a1 = h2 !! data a2 →
  getitem h1 a1 idx = getitem h2 a2 idx.
Proof. unfold getitem. by intros -> -> ->. Qed.

Lemma same_array_views h1 h2 a1 a2 :
  shape a1 = shape a2 → strides a1 = strides a2 →
  h1 !! data a1 = h2 !! data a2 →
  same_array h1 a1 h2 a2.
Proof.
  intros Hs Hst Hb. split; [done|]. unfold ravel. rewrite Hs.
  apply list_fmap_ext. intros _ idx _. by apply getitem_same.
Qed.

(** Reading a freshly built matrix: row-major. *)
Lemma getitem_fresh_2d h m (d : dataset elt) p n j i :
  ds_shape d = [p; n] → h !! m = Some (ds_data d) →
  j < p → i < n →
  getitem h (fresh_array m d) [j; i] = ds_data d !! (j * n + i).
Proof.
  intros Hshape Hbuf Hj Hi. unfold getitem, fresh_array, c_strides. simpl.
  rewrite Hshape, Hbuf. simpl.
  rewrite (proj2 (Nat.ltb_lt j p)), (proj2 (Nat.ltb_lt i n)) by done.
  rewrite decide_False by nia.
  simpl. f_equal. lia.
Qed.

(** Reading a freshly built vector. *)
Lemma getitem_fresh_1d h m (d : dataset elt) n i :
  ds_shape d = [n] → h !! m = Some (ds_data d) → i < n →
  getitem h (fresh_array m d) [i] = ds_data d !! i.
Proof.
  intros Hshape Hbuf Hi. unfold getitem, fresh_array, c_strides. simpl.
  rewrite Hshape, Hbuf. simpl.
  rewrite (proj2 (Nat.ltb_lt i n)) by done.
  rewrite decide_False by lia.
  simpl. f_equal. lia.
Qed.

End Views.

(** ** The properties of the loader *)

Section Properties.
Context {elt : Type}.
Implicit Types (w : world elt) (f : h5file elt) (d : dataset elt).
Implicit Types (a b : ndarray) (key conf : string) (transpose : bool).

(** C1. When the file binds [key] to a matrix of shape (p, n), the call
    without transposition returns that matrix as stored, of shape (p, n)
    and with the stored elements, and the call with transposition returns
    its transpose: of shape (n, p), with element (i, j) the stored element
    (j, i), so that output row i is stored column i. *)
Theorem prepare_confounds_matrix conf key w f d p n :
  files w !! conf = Some f → readable f = true →
  NoDup (items f).*1 → (key, d) ∈ items f →
  ds_shape d = [p; n] → length (ds_data d) = p * n →
  ∃ w' b,
    prepare_confounds conf key false w = (w', Ok b)
    ∧ prepare_confounds conf key true w = (w', Ok (T b))
    ∧ shape b = [p; n] ∧ shape (T b) = [n; p]
    ∧ (∀ j i, j < p → i < n →
         is_Some (ds_data d !! (j * n + i))
         ∧ getitem (heap w') b [j; i] = ds_data d !! (j * n + i)
         ∧ getitem (heap w') (T b) [i; j] = ds_data d !! (j * n + i))
    ∧ (∀ i, row (heap w') (T b) i = col (heap w') b i).
Proof.
  intros Hf Hr Hnd Hin Hshape Hlen.
  destruct (find_last_NoDup _ _ _ Hnd Hin) as [m Hm].
  exists (after_return (items f) w), (fresh_array (length (heap w) + m) d).
  rewrite !(prepare_confounds_run _ _ _ _ _ Hf Hr), Hm. simpl.
  pose proof (after_return_buffer _ w _ _ _ Hm) as Hbuf.
  assert (Hstr : length (strides (fresh_array (length (heap w) + m) d))
                 = length (shape (fresh_array (length (heap w) + m) d)))
    by apply c_strides_length.
  repeat split; try done.
  - unfold T. simpl. by rewrite Hshape.
  - apply lookup_lt_is_Some. nia.
  - by apply getitem_fresh_2d with p.
  - change [i; j] with (reverse [j; i]). rewrite getitem_T by done.
    by apply getitem_fresh_2d with p.
  - intros i. apply row_T_col with p n; [done|].
    rewrite Hstr. simpl. by rewrite Hshape.
Qed.

(** C2. When the file opens and does not contain [key], the call raises
    KeyError for that key, with and without transposition. *)
Theorem prepare_confounds_missing_key conf key transpose w f :
  files w !! conf = Some f → readable f = true →
  key ∉ (items f).*1 →
  (prepare_confounds conf key transpose w).2 = Raise (KeyError key).
Proof.
  intros Hf Hr Hkey%find_last_None.
  by rewrite (prepare_confounds_run _ _ _ _ _ Hf Hr), Hkey.
Qed.

(** C3. When the path names no file, or a file that cannot be read, the
    call raises the error of the failed open and produces nothing: no
    array is returned and the world, its heap included, is as before. *)
Theorem prepare_confounds_no_such_file conf key transpose w :
  (files w !! conf = None
   ∨ ∃ f, files w !! conf = Some f ∧ readable f = false) →
  prepare_confounds conf key transpose w = (w, Raise (OSError conf)).
Proof.
  intros Hno. apply prepare_confounds_no_file. intros f Hf.
  destruct Hno as [Hnone|(f' & Hf' & Hr)]; congruence.
Qed.

(** C4, as the code has it. When the array bound to [key] has fewer than
    2 dimensions and transposition is requested, the call does not fail:
    it returns an array with the stored extents over the stored elements,
    and in particular raises no ShapeError. *)
Theorem prepare_confounds_low_rank conf key w f d :
  files w !! conf = Some f → readable f = true →
  NoDup (items f).*1 → (key, d) ∈ items f →
  length (ds_shape d) < 2 →
  ∃ w' a,
    prepare_confounds conf key true w = (w', Ok a)
    ∧ shape a = ds_shape d
    ∧ heap w' !! data a = Some (ds_data d)
    ∧ (prepare_confounds conf key true w).2 ≠ Raise ShapeError.
Proof.
  intros Hf Hr Hnd Hin Hrank.
  destruct (find_last_NoDup _ _ _ Hnd Hin) as [m Hm].
  exists (after_return (items f) w),
         (T (fresh_array (length (heap w) + m) d)).
  rewrite (prepare_confounds_run _ _ _ _ _ Hf Hr), Hm.
  repeat split; try done.
  - unfold T, fresh_array. simpl.
    destruct (ds_shape d) as [|? [|? ?]]; simpl in *; try done; lia.
  - by apply after_return_buffer with key.
Qed.

(** C5, as the code has it. After a successful open the function closes
    nothing itself. When the call returns, the file object, which only the
    local [f] refers to, is reclaimed with the frame, and the handle table
    is as it was before the call. When the key is absent, the KeyError
    leaves the function with the handle still in the table, on top of the
    handles that were open before. *)
Theorem prepare_confounds_handle conf key transpose w f :
  files w !! conf = Some f → readable f = true →
  (key ∈ (items f).*1 →
     (∃ a, (prepare_confounds conf key transpose w).2 = Ok a)
     ∧ releases_handle conf key transpose w)
  ∧ (key ∉ (items f).*1 →
     (prepare_confounds conf key transpose w).2 = Raise (KeyError key)
     ∧ handles (prepare_confounds conf key transpose w).1
       = conf :: handles w).
Proof.
  intros Hf Hr. unfold releases_handle.
  rewrite (prepare_confounds_run _ _ _ _ _ Hf Hr).
  destruct (find_last key (items f)) as [[m d]|] eqn:Hm.
  - split; [by eauto|].
    intros Hkey%find_last_None. congruence.
  - split; [|done].
    intros Hkey. by apply find_last_None in Hm.
Qed.

(** C6. Calling twice with the same arguments, the second call running in
    the world the first one left, gives the same outcome: the same
    exception, or two arrays with the same extents and the same elements. *)
Theorem prepare_confounds_repeatable conf key transpose w :
  let '(w1, r1) := prepare_confounds conf key transpose w in
  let '(w2, r2) := prepare_confounds conf key transpose w1 in
  same_result (heap w2) r1 (heap w2) r2.
Proof.
  destruct (files w !! conf) as [f|] eqn:Hf;
    [destruct (readable f) eqn:Hr|].
  - rewrite (prepare_confounds_run _ _ _ _ _ Hf Hr).
    destruct (find_last key (items f)) as [[m d]|] eqn:Hm; simpl.
    2:{ rewrite (prepare_confounds_run conf key transpose
                   (after_read conf (items f) w) f) by done.
        by rewrite Hm. }
    rewrite (prepare_confounds_run conf key transpose
               (after_return (items f) w) f) by done.
    rewrite Hm. simpl.
    pose proof (after_return_buffer _ w _ _ _ Hm) as Hb1.
    pose proof (after_return_buffer _ (after_return (items f) w)
                  _ _ _ Hm) as Hb2.
    simpl in Hb1, Hb2.
    assert (Hb : ((heap w ++ (ds_data ∘ snd <$> items f))
                  ++ (ds_data ∘ snd <$> items f)) !! (length (heap w) + m)
                 = Some (ds_data d)).
    { rewrite lookup_app_l; [done|]. by apply lookup_lt_Some in Hb1. }
    destruct transpose; apply same_array_views; simpl; try done;
      by rewrite Hb, Hb2.
  - rewrite !prepare_confounds_no_file; [done|intros; congruence..].
  - rewrite !prepare_confounds_no_file; [done|intros; congruence..].
Qed.

(** C7. Transposing twice an array the loader returned gives that array. *)
Theorem prepare_confounds_T_T conf key transpose w w' a :
  prepare_confounds conf key transpose w = (w', Ok a) →
  T (T a) = a
  ∧ ∀ idx, getitem (heap w') (T (T a)) idx = getitem (heap w') a idx.
Proof. intros _. by rewrite T_involutive. Qed.

(** C8. Two files that bind [key] to the same dataset give arrays with the
    same extents and elements, whatever else the files hold and in whatever
    order their members are enumerated. *)
Theorem prepare_confounds_only_binding conf1 conf2 key transpose w1 w2 f1 f2 d :
  files w1 !! conf1 = Some f1 → readable f1 = true →
  NoDup (items f1).*1 → (key, d) ∈ items f1 →
  files w2 !! conf2 = Some f2 → readable f2 = true →
  NoDup (items f2).*1 → (key, d) ∈ items f2 →
  ∃ w1' a1 w2' a2,
    prepare_confounds conf1 key transpose w1 = (w1', Ok a1)
    ∧ prepare_confounds conf2 key transpose w2 = (w2', Ok a2)
    ∧ same_array (heap w1') a1 (heap w2') a2.
Proof.
  intros Hf1 Hr1 Hnd1 Hin1 Hf2 Hr2 Hnd2 Hin2.
  destruct (find_last_NoDup _ _ _ Hnd1 Hin1) as [m1 Hm1].
  destruct (find_last_NoDup _ _ _ Hnd2 Hin2) as [m2 Hm2].
  rewrite (prepare_confounds_run _ _ _ _ _ Hf1 Hr1), Hm1.
  rewrite (prepare_confounds_run _ _ _ _ _ Hf2 Hr2), Hm2.
  do 4 eexists. split; [done|]. split; [done|].
  pose proof (after_return_buffer _ w1 _ _ _ Hm1) as Hb1.
  pose proof (after_return_buffer _ w2 _ _ _ Hm2) as Hb2.
  simpl in Hb1, Hb2.
  destruct transpose; apply same_array_views; simpl; try done;
    by rewrite Hb1, Hb2.
Qed.


(** C10. When the array bound to [key] is 1-dimensional, the call with
    transposition raises nothing and returns the very array the call
    without transposition returns: of the stored length, with the stored
    elements in the stored order. *)
Theorem prepare_confounds_vector conf key w f d n :
  files w !! conf = Some f → readable f = true →
  NoDup (items f).*1 → (key, d) ∈ items f →
  ds_shape d = [n] → length (ds_data d) = n →
  ∃ w' b,
    prepare_confounds conf key true w = (w', Ok b)
    ∧ prepare_confounds conf key false w = (w', Ok b)
    ∧ shape b = [n]
    ∧ ∀ i, i < n →
        is_Some (ds_data d !! i)
        ∧ getitem (heap w') b [i] = ds_data d !! i.
Proof.
  intros Hf Hr Hnd Hin Hshape Hlen.
  destruct (find_last_NoDup _ _ _ Hnd Hin) as [m Hm].
  exists (after_return (items f) w), (fresh_array (length (heap w) + m) d).
  rewrite !(prepare_confounds_run _ _ _ _ _ Hf Hr), Hm. simpl.
  pose proof (after_return_buffer _ w _ _ _ Hm) as Hbuf.
  assert (HT : T (fresh_array (length (heap w) + m) d)
               = fresh_array (length (heap w) + m) d)
    by (unfold T, fresh_array, c_strides; simpl; rewrite Hshape; simpl;
        by case_decide).
  rewrite HT. repeat split; try done.
  - apply lookup_lt_is_Some. lia.
  - by apply getitem_fresh_1d with n.
Qed.

End Properties.

(** ** The loader on the sample file system *)

Example sub01_R_transposed :
  (prepare_confounds "sub01.mat" "R" true disk).2
  = Ok (NDArray 0 [3; 2] [1; 3]).
Proof. reflexivity. Qed.

Example sub01_R_transposed_rows :
  let '(w', r) := prepare_confounds "sub01.mat" "R" true disk in
  match r with
  | Ok a => [row (heap w') a 0; row (heap w') a 1; row (heap w') a 2]
  | Raise _ => []
  end
  = [[Some 11; Some 21]; [Some 12; Some 22]; [Some 13; Some 23]]%Z.
Proof. reflexivity. Qed.

Example sub01_R_stored :
  let '(w', r) := prepare_confounds "sub01.mat" "R" false disk in
  match r with
  | Ok a => [row (heap w') a 0; row (heap w') a 1]
  | Raise _ => []
  end
  = [[Some 11; Some 12; Some 13]; [Some 21; Some 22; Some 23]]%Z.
Proof. reflexivity. Qed.

Example sub01_scalar_transposed :
  (prepare_confounds "sub01.mat" "tr" true disk).2 = Ok (NDArray 2 [] []).
Proof. reflexivity. Qed.

Example locked_raises :
  prepare_confounds "locked.mat" "R" true disk
  = (disk, Raise (OSError "locked.mat")).
Proof. reflexivity. Qed.

Lemma sub01_keys_NoDup : NoDup (items sub01).*1.
Proof. compute_done. Defined.

Lemma sub02_keys_NoDup : NoDup (items sub02).*1.
Proof. compute_done. Defined.

Lemma prepare_confounds_matrix_sub01 :
  ∃ w' b,
    prepare_confounds "sub01.mat" "R" false disk = (w', Ok b)
    ∧ prepare_confounds "sub01.mat" "R" true disk = (w', Ok (T b))
    ∧ shape b = [2; 3] ∧ shape (T b) = [3; 2]
    ∧ (∀ j i, j < 2 → i < 3 →
         is_Some (ds_data motion !! (j * 3 + i))
         ∧ getitem (heap w') b [j; i] = ds_data motion !! (j * 3 + i)
         ∧ getitem (heap w') (T b) [i; j] = ds_data motion !! (j * 3 + i))
    ∧ (∀ i, row (heap w') (T b) i = col (heap w') b i).
Proof.
  apply (prepare_confounds_matrix "sub01.mat" "R" disk sub01 motion 2 3).
  - reflexivity.
  - reflexivity.
  - exact sub01_keys_NoDup.
  - apply list_elem_of_here.
  - reflexivity.
  - reflexivity.
Defined.

Lemma prepare_confounds_missing_key_sub01 :
  (prepare_confounds "sub01.mat" "csf" true disk).2 = Raise (KeyError "csf")
  ∧ (prepare_confounds "sub01.mat" "csf" false disk).2
    = Raise (KeyError "csf").
Proof.
  split;
    apply (prepare_confounds_missing_key "sub01.mat" "csf" _ disk sub01);
    try reflexivity; compute_done.
Defined.

Lemma prepare_confounds_no_such_file_disk :
  prepare_confounds "/nonexistent/path" "R" true disk
  = (disk, Raise (OSError "/nonexistent/path"))
  ∧ prepare_confounds "locked.mat" "R" true disk
    = (disk, Raise (OSError "locked.mat")).
Proof.
  split.
  - apply (prepare_confounds_no_such_file "/nonexistent/path" "R" true disk).
    left. reflexivity.
  - apply (prepare_confounds_no_such_file "locked.mat" "R" true disk).
    right. exists locked. split; reflexivity.
Defined.

(** C4 fails on the code: on the vector under ["fd"] and on the scalar
    under ["tr"], a call with transposition returns an array and raises
    no ShapeError. *)
Lemma low_rank_transposed_without_error :
  (prepare_confounds "sub01.mat" "fd" true disk).2 = Ok (NDArray 1 [3] [1])
  ∧ (prepare_confounds "sub01.mat" "fd" true disk).2 ≠ Raise ShapeError
  ∧ (prepare_confounds "sub01.mat" "tr" true disk).2 ≠ Raise ShapeError.
Proof. split; [reflexivity|]. split; intros H; vm_compute in H; discriminate H. Qed.

Lemma prepare_confounds_low_rank_sub01 :
  ∃ w' a,
    prepare_confounds "sub01.mat" "fd" true disk = (w', Ok a)
    ∧ shape a = [3]
    ∧ heap w' !! data a = Some [7; 8; 9]%Z
    ∧ (prepare_confounds "sub01.mat" "fd" true disk).2 ≠ Raise ShapeError.
Proof.
  apply (prepare_confounds_low_rank "sub01.mat" "fd" disk sub01 displacement).
  - reflexivity.
  - reflexivity.
  - exact sub01_keys_NoDup.
  - apply list_elem_of_further, list_elem_of_here.
  - simpl. lia.
Defined.

(** C5 fails on the code where the key is absent: with no handle open
    before the call, the KeyError for ["csf"] leaves the function with the
    handle of the file open. *)
Lemma handle_open_after_KeyError :
  handles disk = []
  ∧ (prepare_confounds "sub01.mat" "csf" true disk).2
    = Raise (KeyError "csf")
  ∧ ¬ releases_handle "sub01.mat" "csf" true disk
  ∧ handles (prepare_confounds "sub01.mat" "csf" true disk).1
    = ["sub01.mat"].
Proof.
  split; [reflexivity|]. split; [reflexivity|]. unfold releases_handle.
  split; [|reflexivity]. intros H. vm_compute in H. discriminate H.
Qed.

(** A call that returns leaves no handle, and neither do three in a row. *)
Example handle_released_on_return :
  releases_handle "sub01.mat" "R" true disk
  ∧ handles
      (prepare_confounds "sub01.mat" "R" true
         (prepare_confounds "sub02.mat" "R" false
            (prepare_confounds "sub01.mat" "fd" true disk).1).1).1
    = [].
Proof. split; reflexivity. Qed.

Lemma prepare_confounds_handle_sub01 :
  ("R" ∈ (items sub01).*1 →
     (∃ a, (prepare_confounds "sub01.mat" "R" true disk).2 = Ok a)
     ∧ releases_handle "sub01.mat" "R" true disk)
  ∧ ("csf" ∉ (items sub01).*1 →
     (prepare_confounds "sub01.mat" "csf" true disk).2
     = Raise (KeyError "csf")
     ∧ handles (prepare_confounds "sub01.mat" "csf" true disk).1
       = "sub01.mat" :: handles disk).
Proof.
  split.
  - apply (prepare_confounds_handle "sub01.mat" "R" true disk sub01);
      reflexivity.
  - apply (prepare_confounds_handle "sub01.mat" "csf" true disk sub01);
      reflexivity.
Defined.

Lemma prepare_confounds_T_T_sub01 :
  T (T (NDArray 0 [3; 2] [1; 3])) = NDArray 0 [3; 2] [1; 3]
  ∧ ∀ idx,
      getitem (heap (after_return (items sub01) disk))
        (T (T (NDArray 0 [3; 2] [1; 3]))) idx
      = getitem (heap (after_return (items sub01) disk))
          (NDArray 0 [3; 2] [1; 3]) idx.
Proof.
  apply (prepare_confounds_T_T "sub01.mat" "R" true disk).
  reflexivity.
Defined.

Lemma prepare_confounds_only_binding_disk :
  ∃ w1' a1 w2' a2,
    prepare_confounds "sub01.mat" "R" true disk = (w1', Ok a1)
    ∧ prepare_confounds "sub02.mat" "R" true disk = (w2', Ok a2)
    ∧ same_array (heap w1') a1 (heap w2') a2.
Proof.
  apply (prepare_confounds_only_binding "sub01.mat" "sub02.mat" "R" true
           disk disk sub01 sub02 motion).
  - reflexivity.
  - reflexivity.
  - exact sub01_keys_NoDup.
  - apply list_elem_of_here.
  - reflexivity.
  - reflexivity.
  - exact sub02_keys_NoDup.
  - do 2 apply list_elem_of_further. apply list_elem_of_here.
Defined.

Example only_binding_buffers_differ :
  (prepare_confounds "sub01.mat" "R" true disk).2
  ≠ (prepare_confounds "sub02.mat" "R" true disk).2.
Proof. intros H. vm_compute in H. discriminate H. Qed.


Lemma prepare_confounds_vector_sub01 :
  ∃ w' b,
    prepare_confounds "sub01.mat" "fd" true disk = (w', Ok b)
    ∧ prepare_confounds "sub01.mat" "fd" false disk = (w', Ok b)
    ∧ shape b = [3]
    ∧ ∀ i, i < 3 →
        is_Some (ds_data displacement !! i)
        ∧ getitem (heap w') b [i] = ds_data displacement !! i.
Proof.
  apply (prepare_confounds_vector "sub01.mat" "fd" disk sub01 displacement 3).
  - reflexivity.
  - reflexivity.
  - exact sub01_keys_NoDup.
  - apply list_elem_of_further, list_elem_of_here.
  - reflexivity.
  - reflexivity.
Defined.

(** ** The requests of [fetch_data] on sample arguments *)

Example fetch_one_subject :
  fetch_data_requests (Some 1%Z) None
  = Requests []
      ("participants.tsv",
       "https://openneuro.org/crn/datasets/ds000228/snapshots/00001/files/participants.tsv",
       ∅)
      [0]
      [("derivatives:fmriprep:sub-pixar001:sub-pixar001_task-pixar_run-001_swrf_bold.nii.gz",
        "https://openneuro.org/crn/datasets/ds000228/snapshots/00001/files/derivatives:fmriprep:sub-pixar001:sub-pixar001_task-pixar_run-001_swrf_bold.nii.gz",
        ∅)]
      [("derivatives:fmriprep:sub-pixar001:sub-pixar001_task-pixar_run-001_ART_and_CompCor_nuisance_regressors.mat",
        "https://openneuro.org/crn/datasets/ds000228/snapshots/00001/files/derivatives:fmriprep:sub-pixar001:sub-pixar001_task-pixar_run-001_ART_and_CompCor_nuisance_regressors.mat",
        ∅)].
Proof. reflexivity. Qed.

Example fmt_03i_samples :
  fmt_03i <$> [1; 42; 155; 1000] = ["001"; "042"; "155"; "1000"].
Proof. reflexivity. Qed.

(** ** Subject numbers in file names *)

Lemma string_app_cons (c : ascii) (s1 s2 : string) :
  String c s1 +:+ s2 = String c (s1 +:+ s2).
Proof. reflexivity. Qed.

Lemma string_app_assoc (s1 s2 s3 : string) :
  (s1 +:+ s2) +:+ s3 = s1 +:+ (s2 +:+ s3).
Proof.
  induction s1 as [|c s1 IH]; [done|].
  rewrite !string_app_cons. by f_equal.
Qed.

Lemma string_app_nil_r (s : string) : s +:+ "" = s.
Proof.
  induction s as [|c s IH]; [done|]. rewrite string_app_cons. by f_equal.
Qed.

Lemma string_length_app (s1 s2 : string) :
  String.length (s1 +:+ s2) = String.length s1 + String.length s2.
Proof.
  induction s1 as [|c s1 IH]; [done|].
  rewrite string_app_cons. simpl. by f_equal.
Qed.

Lemma is_nat_pretty_N_char (x : N) :
  (x < 10)%N → Ascii.is_nat (pretty_N_char x) = Some (N.to_nat x).
Proof.
  intros Hx.
  assert (x = 0 ∨ x = 1 ∨ x = 2 ∨ x = 3 ∨ x = 4 ∨ x = 5 ∨ x = 6
          ∨ x = 7 ∨ x = 8 ∨ x = 9)%N as Hcases by lia.
  repeat (destruct Hcases as [->|Hcases]; [reflexivity|]).
  by subst.
Qed.

(** The digits printed for [x] in front of [s] read back as [x]. *)
Lemma read_digits_pretty_N_go (x : N) :
  ∀ s, ∃ ds,
    pretty_N_go x s = ds +:+ s
    ∧ ∀ acc rest,
        read_digits acc (ds +:+ rest)
        = read_digits (acc * 10 ^ String.length ds + N.to_nat x) rest.
Proof.
  induction (N.lt_wf_0 x) as [x _ IH]. intros s.
  destruct (decide (x = 0%N)) as [->|Hx].
  - exists "". split; [done|]. intros acc rest. simpl. f_equal. lia.
  - rewrite pretty_N_go_step by lia.
    destruct (IH (x `div` 10)%N) with
      (s := String (pretty_N_char (x `mod` 10)) s) as (ds & Hds & Hread).
    { apply N.div_lt; lia. }
    exists (ds +:+ String (pretty_N_char (x `mod` 10)) "").
    split.
    + rewrite Hds. by rewrite string_app_assoc.
    + intros acc rest. rewrite string_app_assoc, Hread.
      rewrite string_app_cons. simpl.
      rewrite is_nat_pretty_N_char by (apply N.mod_lt; lia).
      f_equal. rewrite string_length_app. simpl.
      rewrite Nat.pow_add_r. simpl.
      pose proof (N.div_mod x 10 ltac:(lia)) as Hdm.
      assert (N.to_nat x
              = 10 * N.to_nat (x `div` 10) + N.to_nat (x `mod` 10)) by lia.
      lia.
Qed.

Lemma read_digits_pretty (i acc : nat) (rest : string) :
  ∃ k, read_digits acc (pretty i +:+ rest)
       = read_digits (acc * 10 ^ k + i) rest.
Proof.
  unfold pretty, pretty_nat, pretty, pretty_N.
  case_decide as Hi.
  - exists 1. simpl. f_equal. lia.
  - destruct (read_digits_pretty_N_go (N.of_nat i) "") as (ds & Hds & Hread).
    exists (String.length ds).
    rewrite Hds, string_app_nil_r, Hread. f_equal. lia.
Qed.

Lemma read_digits_zeros (n : nat) (rest : string) :
  read_digits 0 (zeros n +:+ rest) = read_digits 0 rest.
Proof.
  induction n as [|n IH]; [done|]. simpl zeros. by rewrite string_app_cons.
Qed.

(** A subject number printed by ['%03i'] reads back, whatever follows it
    that is not a digit. *)
Lemma read_digits_fmt_03i (i : nat) (c : ascii) (rest : string) :
  Ascii.is_nat c = None →
  read_digits 0 (fmt_03i i +:+ String c rest) = i.
Proof.
  intros Hc. unfold fmt_03i.
  rewrite string_app_assoc, read_digits_zeros.
  destruct (read_digits_pretty i 0 (String c rest)) as [k ->].
  simpl. by rewrite Hc.
Qed.

Lemma functional_name_inj : Inj (=) (=) functional_name.
Proof.
  intros i j Heq. unfold functional_name in Heq.
  apply (inj _) in Heq.
  apply (f_equal (read_digits 0)) in Heq.
  change (":sub-pixar" +:+ ?s) with (String ":"%char ("sub-pixar" +:+ s))
    in Heq.
  by rewrite !read_digits_fmt_03i in Heq.
Qed.

Lemma confound_name_inj : Inj (=) (=) confound_name.
Proof.
  intros i j Heq. unfold confound_name in Heq.
  apply (inj _) in Heq.
  apply (f_equal (read_digits 0)) in Heq.
  change (":sub-pixar" +:+ ?s) with (String ":"%char ("sub-pixar" +:+ s))
    in Heq.
  by rewrite !read_digits_fmt_03i in Heq.
Qed.

Lemma functional_name_ne_confound_name (i j : nat) :
  functional_name i ≠ confound_name j.
Proof.
  intros Heq. unfold functional_name, confound_name in Heq.
  apply (inj _) in Heq.
  assert (i = j) as ->.
  { apply (f_equal (read_digits 0)) in Heq.
    change (":sub-pixar" +:+ ?s) with (String ":"%char ("sub-pixar" +:+ s))
      in Heq.
    by rewrite !read_digits_fmt_03i in Heq. }
  do 3 apply (inj _) in Heq. discriminate Heq.
Qed.

Lemma fmt_03i_length (i : nat) :
  i < 1000 → String.length (fmt_03i i) = 3.
Proof.
  intros Hi.
  assert (Forall (λ i, String.length (fmt_03i i) = 3) (seq 0 1000)) as Hall
    by compute_done.
  rewrite Forall_forall in Hall. apply Hall, elem_of_seq. lia.
Qed.

(** ** Lists of requests *)

Section Zip3.
Context {A B C : Type}.

Lemma zip3_length (l1 : list A) (l2 : list B) (l3 : list C) :
  length l2 = length l1 → length l3 = length l1 →
  length (zip3 l1 l2 l3) = length l1.
Proof.
  revert l2 l3. induction l1 as [|x l1 IH]; intros [|y l2] [|z l3];
    simpl; try done.
  intros [= H2] [= H3]. f_equal. by apply IH.
Qed.

Lemma zip3_lookup (l1 : list A) (l2 : list B) (l3 : list C) i x y z :
  l1 !! i = Some x → l2 !! i = Some y → l3 !! i = Some z →
  zip3 l1 l2 l3 !! i = Some (x, y, z).
Proof.
  revert l2 l3 i. induction l1 as [|x' l1 IH]; intros [|y' l2] [|z' l3] i;
    try done.
  destruct i as [|i]; simpl.
  - by intros [= ->] [= ->] [= ->].
  - apply IH.
Qed.

Lemma zip3_names (l1 : list A) (l2 : list B) (l3 : list C) :
  length l2 = length l1 → length l3 = length l1 →
  (λ q : A * B * C, q.1.1) <$> zip3 l1 l2 l3 = l1.
Proof.
  revert l2 l3. induction l1 as [|x l1 IH]; intros [|y l2] [|z l3];
    simpl; try done.
  intros [= H2] [= H3]. f_equal. by apply IH.
Qed.

End Zip3.

Lemma limit_subjects_value (n_subjects : option Z) :
  (limit_subjects n_subjects).1
  = Z.min (default max_subjects n_subjects) max_subjects.
Proof.
  unfold limit_subjects, max_subjects.
  destruct n_subjects as [n|]; simpl; [|done].
  destruct (Z.ltb_spec 155 n); simpl; lia.
Qed.

Lemma subject_ids_length (n : Z) : length (subject_ids n) = Z.to_nat n.
Proof. apply length_seq. Qed.

Lemma file_requests_length (url : string) (name : nat → string) (n : Z) :
  length (file_requests url (name <$> subject_ids n) n) = Z.to_nat n.
Proof.
  unfold file_requests. etrans; [apply zip3_length|];
    rewrite ?length_fmap, ?length_replicate, ?subject_ids_length; done.
Qed.

Lemma file_requests_lookup (url : string) (name : nat → string) (n : Z) i :
  i < Z.to_nat n →
  file_requests url (name <$> subject_ids n) n !! i
  = Some (name (S i), url +:+ name (S i), ∅).
Proof.
  intros Hi. unfold file_requests, subject_ids. apply zip3_lookup.
  - rewrite list_lookup_fmap, lookup_seq_lt by done. done.
  - rewrite !list_lookup_fmap, lookup_seq_lt by done. done.
  - by apply lookup_replicate_2.
Qed.

Lemma file_requests_names (url : string) (name : nat → string) (n : Z) :
  (λ q : request, q.1.1) <$> file_requests url (name <$> subject_ids n) n
  = name <$> subject_ids n.
Proof.
  unfold file_requests. apply zip3_names;
    rewrite ?length_fmap, ?length_replicate, ?subject_ids_length; done.
Qed.

(** ** Properties of the requests of [fetch_data] *)

(** X1. Whatever [n_subjects] is, [fetch_data] asks for as many images as
    confound files and selects as many rows of the participants table:
    [n_subjects] of each, all 155 when [n_subjects] is [None] or larger
    than 155, none when it is below 1. The [zip] with the repeated
    [dict()] cuts nothing off. *)
Theorem fetch_data_requests_counts (n_subjects : option Z)
    (url : option string) :
  let r := fetch_data_requests n_subjects url in
  let k := Z.to_nat (Z.min (default max_subjects n_subjects) max_subjects) in
  length (functionals r) = k ∧ length (confounds r) = k
  ∧ length (phenotypic_rows r) = k ∧ k ≤ 155.
Proof.
  unfold fetch_data_requests.
  pose proof (limit_subjects_value n_subjects) as Hv.
  destruct (limit_subjects n_subjects) as [n warns]. simpl in *. subst n.
  rewrite !file_requests_length, length_fmap, subject_ids_length.
  unfold max_subjects. repeat split; lia.
Qed.

(** X2. Asking for more than 155 subjects asks for exactly what asking for
    all of them ([None]) asks for, the 155 subjects, and differs only by
    the one warning it emits. *)
Theorem fetch_data_requests_excess (k : Z) (url : option string) :
  (max_subjects < k)%Z →
  let r := fetch_data_requests (Some k) url in
  let r_all := fetch_data_requests None url in
  warned r = ["Warning: there are only 155 subjects"] ∧ warned r_all = []
  ∧ phenotypic r = phenotypic r_all
  ∧ phenotypic_rows r = phenotypic_rows r_all
  ∧ functionals r = functionals r_all
  ∧ confounds r = confounds r_all
  ∧ length (functionals r) = 155.
Proof.
  intros Hk. unfold fetch_data_requests, limit_subjects. simpl.
  rewrite (proj2 (Z.ltb_lt max_subjects k) Hk). simpl.
  repeat split; done.
Qed.

(** X3. A warning is emitted exactly when a number above 155 is asked
    for. *)
Theorem fetch_data_requests_warned (n_subjects : option Z)
    (url : option string) :
  warned (fetch_data_requests n_subjects url) ≠ []
  ↔ ∃ k, n_subjects = Some k ∧ (155 < k)%Z.
Proof.
  unfold fetch_data_requests, limit_subjects, max_subjects.
  destruct n_subjects as [k|]; simpl.
  - destruct (Z.ltb_spec 155 k); simpl.
    + split; [|done]. intros _. by exists k.
    + split; [done|]. intros (k' & [= <-] & ?). lia.
  - split; [done|]. by intros (k & ? & _).
Qed.

(** X4. Entry [i] of each list belongs to subject [i + 1]: the image
    request and the confound request carry that subject's file name, their
    address is the base address followed by the name, their options are
    empty, and the row selected from the participants table is row [i]. *)
Theorem fetch_data_requests_subject (n_subjects : option Z)
    (url : option string) (i : nat) :
  let r := fetch_data_requests n_subjects url in
  let base := default default_url url in
  i < length (functionals r) →
  functionals r !! i
  = Some (functional_name (S i), base +:+ functional_name (S i), ∅)
  ∧ confounds r !! i
    = Some (confound_name (S i), base +:+ confound_name (S i), ∅)
  ∧ phenotypic_rows r !! i = Some i.
Proof.
  unfold fetch_data_requests.
  destruct (limit_subjects n_subjects) as [n warns]. simpl.
  rewrite file_requests_length. intros Hi.
  rewrite !file_requests_lookup by done.
  destruct url; simpl; (split; [done|]; split; [done|]);
    unfold subject_ids;
    rewrite list_lookup_fmap, lookup_seq_lt by done; simpl;
    f_equal; lia.
Qed.

(** X5. The file names asked for in one call are pairwise distinct: the
    participants table, one image per subject and one confound file per
    subject, so that no download overwrites another. *)
Theorem fetch_data_requests_NoDup (n_subjects : option Z)
    (url : option string) :
  let r := fetch_data_requests n_subjects url in
  NoDup ((λ q : request, q.1.1)
           <$> (phenotypic r :: functionals r ++ confounds r)).
Proof.
  unfold fetch_data_requests.
  destruct (limit_subjects n_subjects) as [n warns]. simpl.
  rewrite fmap_app, !file_requests_names.
  apply NoDup_cons. split.
  - rewrite elem_of_app, !list_elem_of_fmap.
    intros [(i & Heq & _)|(i & Heq & _)]; discriminate Heq.
  - apply NoDup_app. split; [|split].
    + apply NoDup_fmap_2; [apply functional_name_inj|apply NoDup_seq].
    + intros name (i & -> & _)%list_elem_of_fmap (j & Heq & _)%list_elem_of_fmap.
      by apply functional_name_ne_confound_name in Heq.
    + apply NoDup_fmap_2; [apply confound_name_inj|apply NoDup_seq].
Qed.

(** X6. Every subject number the function uses lies between 1 and 155,
    and is printed in the file names with exactly three digits. *)
Theorem subject_ids_labels (n_subjects : option Z) (i : nat) :
  i ∈ subject_ids (limit_subjects n_subjects).1 →
  1 ≤ i ≤ 155 ∧ String.length (fmt_03i i) = 3.
Proof.
  rewrite limit_subjects_value. unfold subject_ids, max_subjects.
  intros Hi%elem_of_seq.
  assert (1 ≤ i ≤ 155) by lia. split; [done|].
  apply fmt_03i_length. lia.
Qed.

(** X7. A number of subjects below 1 is not refused: the function then
    asks for no image and no confound file, selects no row and emits no
    warning, and still asks for the participants table. *)
Theorem fetch_data_requests_nonpositive (k : Z) (url : option string) :
  (k ≤ 0)%Z →
  fetch_data_requests (Some k) url
  = Requests []
      ("participants.tsv", default default_url url +:+ "participants.tsv", ∅)
      [] [] [].
Proof.
  intros Hk. unfold fetch_data_requests, limit_subjects, max_subjects.
  simpl. destruct (Z.ltb_spec 155 k); [lia|].
  unfold file_requests, subject_ids.
  replace (Z.to_nat k) with 0 by lia. by destruct url.
Qed.

(** ** Row-major layout *)

Lemma size_cons (n : nat) (shp : list nat) : size (n :: shp) = n * size shp.
Proof. reflexivity. Qed.

Lemma seq_blocks (n m : nat) :
  (seq 0 n ≫= λ i, seq (i * m) m) = seq 0 (n * m).
Proof.
  induction n as [|n IH]; [done|].
  rewrite seq_S, bind_app, IH. simpl. rewrite app_nil_r.
  replace (n * m + m) with (m + n * m) by lia.
  replace (m + n * m) with (n * m + m) by lia.
  by rewrite seq_app.
Qed.

Lemma fmap_bind_list {A B C} (f : B → C) (g : A → list B) (l : list A) :
  f <$> (l ≫= g) = l ≫= (λ x, f <$> g x).
Proof.
  induction l as [|x l IH]; [done|].
  by rewrite !bind_cons, fmap_app, IH.
Qed.

Lemma indices_empty (shp : list nat) : size shp = 0 → indices shp = [].
Proof.
  induction shp as [|n shp IH]; [done|].
  rewrite size_cons. intros Hz. simpl indices.
  destruct (decide (size shp = 0)) as [Hs|Hs].
  - rewrite IH by done.
    induction (seq 0 n) as [|i l IHl]; [done|]. by rewrite bind_cons, IHl.
  - by replace n with 0 by nia.
Qed.

Lemma offset_indices_row_major (shp : list nat) :
  (λ idx, offset idx (row_major shp)) <$> indices shp = seq 0 (size shp).
Proof.
  induction shp as [|n shp IH]; [done|].
  rewrite size_cons. simpl indices. simpl row_major.
  rewrite fmap_bind_list, <- seq_blocks.
  apply list_bind_ext; [|done]. intros i.
  rewrite <- list_fmap_compose.
  trans (Nat.add (i * size shp) <$> seq 0 (size shp));
    [|by rewrite fmap_add_seq, Nat.add_0_r].
  rewrite <- IH, <- list_fmap_compose. by apply list_fmap_ext.
Qed.

(** The multi-indices of a shape, in logical order, sit at positions
    0, 1, 2, ... of a contiguous buffer. *)
Lemma offset_indices (shp : list nat) :
  (λ idx, offset idx (c_strides shp)) <$> indices shp = seq 0 (size shp).
Proof.
  unfold c_strides. case_decide as Hz.
  - by rewrite indices_empty, Hz.
  - apply offset_indices_row_major.
Qed.

Lemma in_bounds_indices (shp idx : list nat) :
  idx ∈ indices shp → in_bounds idx shp = true.
Proof.
  revert idx. induction shp as [|n shp IH]; intros idx; simpl.
  - by intros ->%list_elem_of_singleton.
  - intros (i & Hidx & Hi)%list_elem_of_bind.
    apply list_elem_of_fmap in Hidx as (idx' & -> & Hidx').
    apply elem_of_seq in Hi. simpl.
    rewrite (proj2 (Nat.ltb_lt i n)) by lia. by apply IH.
Qed.

Lemma lookup_all {A} (l : list A) :
  (λ i, l !! i) <$> seq 0 (length l) = Some <$> l.
Proof.
  induction l as [|x l IH]; [done|].
  cbn [length seq]. rewrite !fmap_cons. f_equal.
  rewrite <- IH, <- fmap_S_seq, <- list_fmap_compose. done.
Qed.

(** ** Further properties of the loader *)

Section MoreProperties.
Context {elt : Type}.
Implicit Types (w : world elt) (f : h5file elt) (d : dataset elt).
Implicit Types (a b : ndarray) (key conf : string) (transpose : bool).

(** A contiguous array over the data of a well-formed dataset holds that
    data, in order. *)
Lemma ravel_fresh (h : list (list elt)) (m : nat) d :
  h !! m = Some (ds_data d) → length (ds_data d) = size (ds_shape d) →
  ravel h (fresh_array m d) = Some <$> ds_data d.
Proof.
  intros Hbuf Hlen. unfold ravel. simpl.
  rewrite <- lookup_all, Hlen, <- offset_indices, <- list_fmap_compose.
  apply list_fmap_ext. intros i idx Hidx. unfold getitem. simpl.
  rewrite in_bounds_indices by (by eapply list_elem_of_lookup_2).
  by rewrite Hbuf.
Qed.

(** The array a call returns reads from a buffer the call allocated. *)
Lemma prepare_confounds_ok_fresh conf key transpose w w' a :
  prepare_confounds conf key transpose w = (w', Ok a) →
  length (heap w) ≤ data a < length (heap w').
Proof.
  destruct (files w !! conf) as [f|] eqn:Hf;
    [destruct (readable f) eqn:Hr|].
  - rewrite (prepare_confounds_run _ _ _ _ _ Hf Hr).
    destruct (find_last key (items f)) as [[m d]|] eqn:Hm; [|done].
    intros [= <- <-].
    pose proof (after_return_buffer _ w _ _ _ Hm) as Hb.
    apply lookup_lt_Some in Hb. simpl in Hb.
    destruct transpose; simpl; lia.
  - rewrite prepare_confounds_no_file; [done|intros; congruence].
  - rewrite prepare_confounds_no_file; [done|intros; congruence].
Qed.

(** X8. For an array of any rank, transposition reverses all axes: the
    call with transposition returns the transpose of what the call without
    returns, with the stored extents in reverse order, and reading it at a
    reversed multi-index gives what the untransposed array holds at the
    multi-index. *)
Theorem prepare_confounds_any_rank conf key w f d :
  files w !! conf = Some f → readable f = true →
  NoDup (items f).*1 → (key, d) ∈ items f →
  ∃ w' b,
    prepare_confounds conf key false w = (w', Ok b)
    ∧ prepare_confounds conf key true w = (w', Ok (T b))
    ∧ shape b = ds_shape d
    ∧ shape (T b) = reverse (ds_shape d)
    ∧ ∀ idx, getitem (heap w') (T b) (reverse idx) = getitem (heap w') b idx.
Proof.
  intros Hf Hr Hnd Hin.
  destruct (find_last_NoDup _ _ _ Hnd Hin) as [m Hm].
  exists (after_return (items f) w), (fresh_array (length (heap w) + m) d).
  rewrite !(prepare_confounds_run _ _ _ _ _ Hf Hr), Hm.
  repeat split; try done.
  intros idx. apply getitem_T. apply c_strides_length.
Qed.

(** X9. Without transposition the returned array, of any rank, holds
    exactly the elements of the stored dataset, in the stored order. *)
Theorem prepare_confounds_stored_order conf key w f d :
  files w !! conf = Some f → readable f = true →
  NoDup (items f).*1 → (key, d) ∈ items f →
  length (ds_data d) = size (ds_shape d) →
  ∃ w' b,
    prepare_confounds conf key false w = (w', Ok b)
    ∧ shape b = ds_shape d
    ∧ ravel (heap w') b = Some <$> ds_data d.
Proof.
  intros Hf Hr Hnd Hin Hlen.
  destruct (find_last_NoDup _ _ _ Hnd Hin) as [m Hm].
  exists (after_return (items f) w), (fresh_array (length (heap w) + m) d).
  rewrite (prepare_confounds_run _ _ _ _ _ Hf Hr), Hm.
  repeat split; try done.
  apply ravel_fresh; [|done]. by apply after_return_buffer with key.
Qed.

(** X10. A call reads every member of the file into memory, not only the
    one asked for: whatever the key, present or absent, and whatever the
    flag, the heap grows by one buffer per member, in enumeration order. *)
Theorem prepare_confounds_reads_all conf key transpose w f :
  files w !! conf = Some f → readable f = true →
  heap (prepare_confounds conf key transpose w).1
  = heap w ++ (ds_data ∘ snd <$> items f).
Proof.
  intros Hf Hr. rewrite (prepare_confounds_run _ _ _ _ _ Hf Hr).
  by destruct (find_last key (items f)) as [[m d]|].
Qed.

(** X11. The arrays returned by two calls made one after the other never
    share a buffer, whatever files and keys the calls name. *)
Theorem prepare_confounds_no_sharing conf1 key1 transpose1 conf2 key2
    transpose2 w w1 w2 a1 a2 :
  prepare_confounds conf1 key1 transpose1 w = (w1, Ok a1) →
  prepare_confounds conf2 key2 transpose2 w1 = (w2, Ok a2) →
  data a1 ≠ data a2.
Proof.
  intros H1%prepare_confounds_ok_fresh H2%prepare_confounds_ok_fresh. lia.
Qed.

(** X12. The flag changes nothing but the view returned: with and without
    transposition a call leaves the same world and fails in the same way,
    and when it succeeds the flagged result is the transpose of the
    unflagged one, a view of the same buffer. *)
Theorem prepare_confounds_flag conf key w :
  (prepare_confounds conf key true w).1
  = (prepare_confounds conf key false w).1
  ∧ (prepare_confounds conf key true w).2
    = match (prepare_confounds conf key false w).2 with
      | Ok b => Ok (T b)
      | Raise e => Raise e
      end.
Proof.
  destruct (files w !! conf) as [f|] eqn:Hf;
    [destruct (readable f) eqn:Hr|].
  - rewrite !(prepare_confounds_run _ _ _ _ _ Hf Hr).
    by destruct (find_last key (items f)) as [[m d]|].
  - rewrite !prepare_confounds_no_file; [done|intros; congruence..].
  - rewrite !prepare_confounds_no_file; [done|intros; congruence..].
Qed.

End MoreProperties.

(** ** The further properties on sample arguments *)

Lemma fetch_data_requests_excess_200 :
  let r := fetch_data_requests (Some 200%Z) None in
  let r_all := fetch_data_requests None None in
  warned r = ["Warning: there are only 155 subjects"] ∧ warned r_all = []
  ∧ phenotypic r = phenotypic r_all
  ∧ phenotypic_rows r = phenotypic_rows r_all
  ∧ functionals r = functionals r_all
  ∧ confounds r = confounds r_all
  ∧ length (functionals r) = 155.
Proof.
  apply (fetch_data_requests_excess 200 None). unfold max_subjects. lia.
Defined.

Lemma fetch_data_requests_subject_30_7 :
  let r := fetch_data_requests (Some 30%Z) None in
  functionals r !! 7
  = Some (functional_name 8, default_url +:+ functional_name 8, ∅)
  ∧ confounds r !! 7
    = Some (confound_name 8, default_url +:+ confound_name 8, ∅)
  ∧ phenotypic_rows r !! 7 = Some 7.
Proof.
  apply (fetch_data_requests_subject (Some 30%Z) None 7).
  vm_compute. lia.
Defined.

Lemma subject_ids_labels_30_8 :
  1 ≤ 8 ≤ 155 ∧ String.length (fmt_03i 8) = 3.
Proof. apply (subject_ids_labels (Some 30%Z) 8). compute_done. Defined.

Lemma fetch_data_requests_nonpositive_0 :
  fetch_data_requests (Some 0%Z) None
  = Requests []
      ("participants.tsv", default default_url None +:+ "participants.tsv", ∅)
      [] [] [].
Proof. apply (fetch_data_requests_nonpositive 0 None). lia. Defined.

Lemma prepare_confounds_any_rank_sub01 :
  ∃ w' b,
    prepare_confounds "sub01.mat" "R" false disk = (w', Ok b)
    ∧ prepare_confounds "sub01.mat" "R" true disk = (w', Ok (T b))
    ∧ shape b = ds_shape motion
    ∧ shape (T b) = reverse (ds_shape motion)
    ∧ ∀ idx, getitem (heap w') (T b) (reverse idx) = getitem (heap w') b idx.
Proof.
  apply (prepare_confounds_any_rank "sub01.mat" "R" disk sub01 motion).
  - reflexivity.
  - reflexivity.
  - exact sub01_keys_NoDup.
  - apply list_elem_of_here.
Defined.

Lemma prepare_confounds_stored_order_sub01 :
  ∃ w' b,
    prepare_confounds "sub01.mat" "R" false disk = (w', Ok b)
    ∧ shape b = ds_shape motion
    ∧ ravel (heap w') b = Some <$> ds_data motion.
Proof.
  apply (prepare_confounds_stored_order "sub01.mat" "R" disk sub01 motion).
  - reflexivity.
  - reflexivity.
  - exact sub01_keys_NoDup.
  - apply list_elem_of_here.
  - reflexivity.
Defined.

Lemma prepare_confounds_reads_all_sub01 :
  heap (prepare_confounds "sub01.mat" "csf" true disk).1
  = heap disk ++ (ds_data ∘ snd <$> items sub01).
Proof.
  apply (prepare_confounds_reads_all "sub01.mat" "csf" true disk sub01);
    reflexivity.
Defined.

Lemma prepare_confounds_no_sharing_disk :
  data (NDArray 0 [3; 2] [1; 3]) ≠ data (NDArray 3 [3] [1]).
Proof.
  eapply (prepare_confounds_no_sharing "sub01.mat" "R" true
            "sub02.mat" "fd" false disk); reflexivity.
Defined.

Example c_strides_samples :
  c_strides [2; 3] = [3; 1] ∧ c_strides [4; 2; 3] = [6; 3; 1]
  ∧ c_strides [0; 3] = [0; 0] ∧ c_strides [2; 0; 3] = [0; 0; 0]
  ∧ c_strides [] = [].
Proof. repeat split; reflexivity. Qed.
